(** * rclone [lsf]: formatted, filterable directory listing

    A shallow embedding of [cmd/lsf/lsf.go] (function [Lsf] and the
    callback it hands to [walk.Walk]) together with the properties of
    the listing engine stated in the specification.

    Conventions of the embedding:
    - a Go [error] is an [option]: [None] is [nil];
    - the package-level flag variables ([format], [separator], ...) are
      gathered in the record [Flags] that [Lsf] receives;
    - everything [Lsf] does to the outside (writes to [out], the error
      counter, the diagnostic log, the traversal it requests) is threaded
      through the record [World];
    - [io.Writer] is an interface, hence a type class [Writer]. *)

From Stdlib Require Import ZArith List String Ascii DecimalString Bool Lia.
Import ListNotations.

Local Open Scope Z_scope.
Local Open Scope string_scope.

(** ** Runes, errors *)

(** [for _, char := range format] yields the runes of the string; the
    flag is kept as that sequence of code points. *)
Definition rune := Z.

Definition rune_of_ascii (c : ascii) : rune := Z.of_N (N_of_ascii c).

(** The runes of a string of ASCII bytes, one per byte. *)
Definition runes (s : string) : list rune :=
  map rune_of_ascii (list_ascii_of_string s).

Inductive Error : Type :=
| Errorf (fmt : string) (arg : rune)   (* errors.Errorf(fmt, arg) *)
| ErrListing (msg : string)            (* an error of the backend's listing *)
| ErrWrite (msg : string).             (* an error of an io.Writer *)

Definition error := option Error.

(** ** Entries *)

Module hash.
(** The flag's help text lists [MD5|SHA-1|DropboxHash]. *)
Inductive Type_ := MD5 | SHA1 | Dropbox.
End hash.

(** Modelled from the spec: a hash value is a "nonempty hex string" (§8),
    a first digit and the digits after it; the digits are printed in lower
    case, as the help text shows them. *)
Inductive HexDigit :=
| x0 | x1 | x2 | x3 | x4 | x5 | x6 | x7
| x8 | x9 | xa | xb | xc | xd | xe | xf.

Record HexString := mkHex { hexHead : HexDigit; hexTail : list HexDigit }.

Definition hexChar (d : HexDigit) : ascii :=
  match d with
  | x0 => "0"
  | x1 => "1"
  | x2 => "2"
  | x3 => "3"
  | x4 => "4"
  | x5 => "5"
  | x6 => "6"
  | x7 => "7"
  | x8 => "8"
  | x9 => "9"
  | xa => "a"
  | xb => "b"
  | xc => "c"
  | xd => "d"
  | xe => "e"
  | xf => "f"
  end%char.

Definition hexText (h : HexString) : string :=
  string_of_list_ascii (map hexChar (hexHead h :: hexTail h)).

Definition hexDigitOf (c : ascii) : option HexDigit :=
  match c with
  | "0" => Some x0
  | "1" => Some x1
  | "2" => Some x2
  | "3" => Some x3
  | "4" => Some x4
  | "5" => Some x5
  | "6" => Some x6
  | "7" => Some x7
  | "8" => Some x8
  | "9" => Some x9
  | "a" => Some xa
  | "b" => Some xb
  | "c" => Some xc
  | "d" => Some xd
  | "e" => Some xe
  | "f" => Some xf
  | _ => None
  end%char.

Fixpoint hexDigitsOf (s : string) : option (list HexDigit) :=
  match s with
  | EmptyString => Some []
  | String c rest =>
      match hexDigitOf c, hexDigitsOf rest with
      | Some d, Some ds => Some (d :: ds)
      | _, _ => None
      end
  end.

(** Reading a hash value: [None] for the empty string and for a string
    with a character that is no lower-case hex digit. *)
Definition hexOf (s : string) : option HexString :=
  match hexDigitsOf s with
  | Some (d :: ds) => Some (mkHex d ds)
  | _ => None
  end.

(** Modelled from the spec: the hash lookup of an object is not in the
    source file.  §4.1 names the outcomes "value present", "computation
    attempted but failed" and "hash kind not supported"; the help text of
    the command adds the hash that "isn't available on the object". *)
Inductive HashOutcome :=
| HashPresent (sum : HexString)
| HashNotAvailable
| HashFailed
| HashNotSupported.

(** Modelled from the spec: a modification time with second precision. *)
Record Time := mkTime {
  year : Z; month : Z; day : Z; hour : Z; minute : Z; second : Z }.

Module fs.

(** Modelled from the spec: §3, an entry is a File or a Directory with a
    path and a modification time that may be absent; a File has a size
    and hashes. *)
Record Object := mkObject {
  o_Remote : string;
  o_ModTime : option Time;
  o_Size : Z;
  o_Hash : hash.Type_ -> HashOutcome }.

Record Directory := mkDirectory {
  d_Remote : string;
  d_ModTime : option Time }.

Inductive DirEntry :=
| IsObject (o : Object)
| IsDirectory (d : Directory).

Definition DirEntries := list DirEntry.

(** The type assertion [_, isDir := entry.(fs.Directory)]. *)
Definition isDirectory (entry : DirEntry) : bool :=
  match entry with IsDirectory _ => true | IsObject _ => false end.

Definition Remote (entry : DirEntry) : string :=
  match entry with
  | IsObject o => o_Remote o
  | IsDirectory d => d_Remote d
  end.

Definition ModTime (entry : DirEntry) : option Time :=
  match entry with
  | IsObject o => o_ModTime o
  | IsDirectory d => d_ModTime d
  end.

(** One record of the diagnostic log: [fs.Errorf(o, fmt, err)]. *)
Record LogEntry := mkLog {
  log_object : string; log_format : string; log_arg : Error }.

(** Modelled from the spec: the side channel of §4.5, "diagnostic log /
    error counter"; [fs.CountError] and [fs.Errorf] are not in the source
    file. *)
Record Diag := mkDiag { errors : Z; logged : list LogEntry }.

Definition CountError (err : Error) (d : Diag) : Diag :=
  mkDiag (errors d + 1) (logged d).

Definition Errorf (o : string) (format : string) (arg : Error) (d : Diag)
  : Diag :=
  mkDiag (errors d) (logged d ++ [mkLog o format arg]).

(** Modelled from the spec: §4.5, "The traversal yields a sequence of
    steps, each step being either (a) a successful batch of Entries at a
    given path, or (b) an error tied to a given path".  A step is the
    argument triple of the callback, so it carries both the batch and the
    error. *)
Record Step := mkStep {
  path : string; entries : DirEntries; err : error }.

(** Modelled from the spec: §4.5, a traversal either "cannot be started
    at all" or delivers its steps in order. *)
Record Traversal := mkTraversal {
  start : error; steps : list Step }.

(** Modelled from the spec: the storage backend is an external
    collaborator; it is known by the traversal it yields for a starting
    point, the include-all switch and a depth limit. *)
Record Fs := mkFs { traverse : string -> bool -> Z -> Traversal }.

End fs.

(** ** operations.ListFormat *)

Module operations.

Inductive FieldCode :=
| CodePath
| CodeModTime
| CodeSize
| CodeHash (ht : hash.Type_).

(** Modelled from the spec: [operations.ListFormat] is not in the source
    file.  It holds the RenderConfig (separator, directory slash) and the
    FormatSpec, "an ordered sequence of field codes" (§3). *)
Record ListFormat := mkListFormat {
  separator : string;
  dirSlash : bool;
  output : list FieldCode }.

(** [var list operations.ListFormat]: the zero value. *)
Definition zero : ListFormat := mkListFormat "" false [].

Definition SetSeparator (l : ListFormat) (s : string) : ListFormat :=
  mkListFormat s (dirSlash l) (output l).

Definition SetDirSlash (l : ListFormat) (b : bool) : ListFormat :=
  mkListFormat (separator l) b (output l).

Definition AppendOutput (l : ListFormat) (c : FieldCode) : ListFormat :=
  mkListFormat (separator l) (dirSlash l) (output l ++ [c]).

Definition AddPath (l : ListFormat) := AppendOutput l CodePath.
Definition AddModTime (l : ListFormat) := AppendOutput l CodeModTime.
Definition AddSize (l : ListFormat) := AppendOutput l CodeSize.
Definition AddHash (l : ListFormat) (ht : hash.Type_) :=
  AppendOutput l (CodeHash ht).

Definition decimal (n : Z) : string := NilZero.string_of_int (Z.to_int n).

Fixpoint zeros (n : nat) : string :=
  match n with
  | O => ""
  | S n' => "0" ++ zeros n'
  end.

(** Padding with zeros on the left up to [w] characters; a longer text is
    left as it is. *)
Definition pad (w : nat) (s : string) : string :=
  zeros (w - String.length s) ++ s.

(** Modelled from the spec: §4.1, "a fixed-format timestamp string
    (human-readable, second precision)", written as in the examples of
    the help text: [2016-06-25 18:55:41]. *)
Definition formatTime (t : Time) : string :=
  pad 4 (decimal (year t)) ++ "-" ++ pad 2 (decimal (month t)) ++ "-"
  ++ pad 2 (decimal (day t)) ++ " " ++ pad 2 (decimal (hour t)) ++ ":"
  ++ pad 2 (decimal (minute t)) ++ ":" ++ pad 2 (decimal (second t)).

(** Modelled from the spec: §4.1, the hash of a File; the empty string
    for a hash that is not available is the help text's. *)
Definition hashSum (ht : hash.Type_) (o : fs.Object) : string :=
  match fs.o_Hash o ht with
  | HashPresent sum => hexText sum
  | HashNotAvailable => ""
  | HashFailed => "ERROR"
  | HashNotSupported => "UNSUPPORTED"
  end.

(** Modelled from the spec: §4.1, the Field Extractor Registry. *)
Definition extract (l : ListFormat) (entry : fs.DirEntry) (c : FieldCode)
  : string :=
  match c with
  | CodePath =>
      if fs.isDirectory entry && dirSlash l
      then fs.Remote entry ++ "/"
      else fs.Remote entry
  | CodeModTime =>
      match fs.ModTime entry with
      | Some t => formatTime t
      | None => ""
      end
  | CodeSize =>
      match entry with
      | fs.IsObject o => decimal (fs.o_Size o)
      | fs.IsDirectory _ => "0"
      end
  | CodeHash ht =>
      match entry with
      | fs.IsObject o => hashSum ht o
      | fs.IsDirectory _ => ""
      end
  end.

(** The texts collected for one entry, in FormatSpec order. *)
Definition fields (entry : fs.DirEntry) (l : ListFormat) : list string :=
  map (extract l entry) (output l).

(** Modelled from the spec: §4.3, the Line Renderer joins the collected
    texts with the separator, no leading or trailing separator. *)
Definition ListFormatted (entry : fs.DirEntry) (l : ListFormat) : string :=
  String.concat (separator l) (fields entry l).

(** Modelled from the spec: §4.5, "non-recursive = single level only";
    a negative depth is no limit. *)
Definition ConfigMaxDepth (recursive : bool) : Z :=
  if recursive then -1 else 1.

End operations.


(** ** io.Writer, fmt.Fprintln *)

(** [Write(p []byte) (n int, err error)], on the state of the writer. *)
Class Writer (W : Type) := Write : W -> string -> W * (Z * error).

Definition newline : string := String (ascii_of_nat 10) "".

Module fmt.
(** [fmt.Fprintln(w, s)] for one string operand: a single [Write] of the
    operand followed by a newline. *)
Definition Fprintln {W : Type} `{Writer W} (w : W) (s : string)
  : W * (Z * error) :=
  Write w (s ++ newline).
End fmt.

(** ** The world [Lsf] acts on *)

(** One request of a traversal: [walk.Walk(f, path, includeAll, maxLevel, fn)]. *)
Record WalkCall := mkWalkCall {
  call_path : string; call_includeAll : bool; call_maxLevel : Z }.

Record World (W : Type) := mkWorld {
  out : W;
  diag : fs.Diag;
  walks : list WalkCall }.

Arguments mkWorld {W} _ _ _.
Arguments out {W} _.
Arguments diag {W} _.
Arguments walks {W} _.

Definition set_out {W : Type} (w : World W) (o : W) : World W :=
  mkWorld o (diag w) (walks w).

Definition set_diag {W : Type} (w : World W) (d : fs.Diag) : World W :=
  mkWorld (out w) d (walks w).

Module walk.

(** [walk.Func]: the callback, on the world. *)
Definition Func (W : Type) : Type :=
  string -> fs.DirEntries -> error -> World W -> error * World W.

(** The steps are delivered in order; an error from the callback stops
    the traversal and is its result. *)
Fixpoint deliver {W : Type} (fn : Func W) (ss : list fs.Step) (w : World W)
  : error * World W :=
  match ss with
  | [] => (None, w)
  | s :: rest =>
      match fn (fs.path s) (fs.entries s) (fs.err s) w with
      | (Some e, w') => (Some e, w')
      | (None, w') => deliver fn rest w'
      end
  end.

(** Modelled from the spec: [walk.Walk] is not in the source file.  §4.5:
    the traversal may fail to start, otherwise its steps go to the
    callback one after the other; a fatal error "aborts the listing
    immediately, propagated to the caller". *)
Definition Walk {W : Type} (f : fs.Fs) (path : string) (includeAll : bool)
  (maxLevel : Z) (fn : Func W) (w : World W) : error * World W :=
  let w := mkWorld (out w) (diag w)
             (walks w ++ [mkWalkCall path includeAll maxLevel]) in
  let t := fs.traverse f path includeAll maxLevel in
  match fs.start t with
  | Some e => (Some e, w)
  | None => deliver fn (fs.steps t) w
  end.

End walk.

(** ** cmd/lsf *)

(** The package-level variables set from the command line. *)
Record Flags := mkFlags {
  format : list rune;
  separator : string;
  dirSlash : bool;
  recurse : bool;
  hashType : hash.Type_;
  filesOnly : bool;
  dirsOnly : bool }.

(** The defaults registered in [init]. *)
Definition defaultFlags : Flags :=
  mkFlags (runes "p") ";" true false hash.MD5 false false.

(** The loop over the format string:
    [for _, char := range format { switch char { ... } }]. *)
Fixpoint Lsf_format (hashType : hash.Type_) (chars : list rune)
  (list : operations.ListFormat) : Error + operations.ListFormat :=
  match chars with
  | [] => inr list
  | char :: rest =>
      if (char =? rune_of_ascii "p")%Z then
        Lsf_format hashType rest (operations.AddPath list)
      else if (char =? rune_of_ascii "t")%Z then
        Lsf_format hashType rest (operations.AddModTime list)
      else if (char =? rune_of_ascii "s")%Z then
        Lsf_format hashType rest (operations.AddSize list)
      else if (char =? rune_of_ascii "h")%Z then
        Lsf_format hashType rest (operations.AddHash list hashType)
      else
        inl (Errorf "Unknown format character %q" char)
  end.

(** [fmt.Fprintln(out, line)] as a statement: both results are dropped. *)
Definition println {W : Type} `{Writer W} (w : World W) (line : string)
  : World W :=
  set_out w (fst (fmt.Fprintln (out w) line)).

(** The loop over the entries of one step. *)
Fixpoint Lsf_entries {W : Type} `{Writer W} (fl : Flags)
  (list : operations.ListFormat) (entries : fs.DirEntries) (w : World W)
  : World W :=
  match entries with
  | [] => w
  | entry :: rest =>
      let isDir := fs.isDirectory entry in
      if isDir then
        if filesOnly fl then Lsf_entries fl list rest w
        else Lsf_entries fl list rest
               (println w (operations.ListFormatted entry list))
      else
        if dirsOnly fl then Lsf_entries fl list rest w
        else Lsf_entries fl list rest
               (println w (operations.ListFormatted entry list))
  end.

(** The callback handed to [walk.Walk]. *)
Definition Lsf_fn {W : Type} `{Writer W} (fl : Flags)
  (list : operations.ListFormat) : walk.Func W :=
  fun path entries err w =>
    match err with
    | Some e =>
        let d := fs.CountError e (diag w) in
        let d := fs.Errorf path "error listing: %v" e d in
        (None, set_diag w d)
    | None => (None, Lsf_entries fl list entries w)
    end.

Definition Lsf {W : Type} `{Writer W} (fl : Flags) (fsrc : fs.Fs)
  (w : World W) : error * World W :=
  let list := operations.zero in
  let list := operations.SetSeparator list (separator fl) in
  let list := operations.SetDirSlash list (dirSlash fl) in
  match Lsf_format (hashType fl) (format fl) list with
  | inl e => (Some e, w)
  | inr list =>
      walk.Walk fsrc "" false (operations.ConfigMaxDepth (recurse fl))
        (Lsf_fn fl list) w
  end.

(** ** Two writers *)

(** An in-memory buffer: every write is appended and succeeds. *)
Definition Buffer := string.

#[export] Instance Buffer_Writer : Writer Buffer :=
  fun b p => (b ++ p, (Z.of_nat (String.length p), None)).

(** A pipe whose reader goes away after [room] writes: from then on the
    sink is unwritable, every write is refused with an error. *)
Record Pipe := mkPipe {
  room : nat; accepted : list string; refused : list string }.

Definition ErrClosedPipe : Error := ErrWrite "io: read/write on closed pipe".

#[export] Instance Pipe_Writer : Writer Pipe :=
  fun q p =>
    match room q with
    | S k =>
        (mkPipe k (accepted q ++ [p]) (refused q),
         (Z.of_nat (String.length p), None))
    | O =>
        (mkPipe O (accepted q) (refused q ++ [p]), (0, Some ErrClosedPipe))
    end.

(** ** The specification's vocabulary *)

(** §4.2: the recognized alphabet {p,t,s,h}. *)
Definition in_alphabet (c : rune) : bool :=
  existsb (Z.eqb c) (runes "ptsh").

(** The help text's table of parameters: p - path, s - size,
    t - modification time, h - hash. *)
Definition fieldTable (ht : hash.Type_)
  : list (rune * operations.FieldCode) :=
  [ (rune_of_ascii "p", operations.CodePath);
    (rune_of_ascii "s", operations.CodeSize);
    (rune_of_ascii "t", operations.CodeModTime);
    (rune_of_ascii "h", operations.CodeHash ht) ].

Definition codeOf (ht : hash.Type_) (c : rune)
  : option operations.FieldCode :=
  option_map snd (find (fun e => (c =? fst e)%Z) (fieldTable ht)).

(** The RenderConfig [Lsf] sets up before it reads the format. *)
Definition renderConfig (fl : Flags) : operations.ListFormat :=
  operations.SetDirSlash
    (operations.SetSeparator operations.zero (separator fl)) (dirSlash fl).

(** §4.2: [compile(formatString) -> FormatSpec | error]. *)
Definition compile (fl : Flags) : Error + operations.ListFormat :=
  Lsf_format (hashType fl) (format fl) (renderConfig fl).

(** The text of the field a format character selects, for one entry. *)
Definition fieldText (fl : Flags) (entry : fs.DirEntry) (c : rune) : string :=
  match codeOf (hashType fl) c with
  | Some code => operations.extract (renderConfig fl) entry code
  | None => ""
  end.

(** §4.4: [keep(entry, FilterMode)], on the two flags. *)
Definition keep (fl : Flags) (entry : fs.DirEntry) : bool :=
  if fs.isDirectory entry then negb (filesOnly fl) else negb (dirsOnly fl).

Definition survivors (fl : Flags) (entries : fs.DirEntries) : fs.DirEntries :=
  filter (keep fl) entries.

(** The rendered lines of the surviving entries of a batch, in order. *)
Definition rendered (fl : Flags) (l : operations.ListFormat)
  (entries : fs.DirEntries) : list string :=
  map (fun entry => operations.ListFormatted entry l) (survivors fl entries).

(** The lines one step contributes: none for an error step. *)
Definition stepLines (fl : Flags) (l : operations.ListFormat)
  (s : fs.Step) : list string :=
  match fs.err s with
  | Some _ => []
  | None => rendered fl l (fs.entries s)
  end.

(** The log records the error steps contribute, in order. *)
Definition stepErrors (ss : list fs.Step) : list fs.LogEntry :=
  flat_map (fun s =>
    match fs.err s with
    | Some e => [fs.mkLog (fs.path s) "error listing: %v" e]
    | None => []
    end) ss.

(** The traversal [Lsf] requests from the backend. *)
Definition traversalOf (fl : Flags) (fsrc : fs.Fs) : fs.Traversal :=
  fs.traverse fsrc "" false (operations.ConfigMaxDepth (recurse fl)).

(** All the lines of a listing: none when the format is refused or the
    traversal does not start. *)
Definition Lsf_lines (fl : Flags) (fsrc : fs.Fs) : list string :=
  match compile fl with
  | inl _ => []
  | inr l =>
      match fs.start (traversalOf fl fsrc) with
      | Some _ => []
      | None => flat_map (stepLines fl l) (fs.steps (traversalOf fl fsrc))
      end
  end.

(** Writing lines to a writer, one [Write] per newline-terminated line,
    whatever each [Write] answers. *)
Definition writeAll {W : Type} `{Writer W} (lines : list string) (o : W) : W :=
  fold_left (fun o line => fst (Write o (line ++ newline))) lines o.

(** A step with its batch erased when it carries an error. *)
Definition eraseFailed (s : fs.Step) : fs.Step :=
  match fs.err s with
  | Some e => fs.mkStep (fs.path s) [] (Some e)
  | None => s
  end.

Definition eraseFailedFs (f : fs.Fs) : fs.Fs :=
  fs.mkFs (fun path includeAll maxLevel =>
    let t := fs.traverse f path includeAll maxLevel in
    fs.mkTraversal (fs.start t) (map eraseFailed (fs.steps t))).

(** Lower-case hexadecimal digits, as hash sums are printed. *)
Definition isHexDigit (c : ascii) : bool :=
  let n := nat_of_ascii c in
  ((48 <=? n) && (n <=? 57) || (97 <=? n) && (n <=? 102))%nat.

Definition isHex (s : string) : bool :=
  forallb isHexDigit (list_ascii_of_string s).

(** What one step of the traversal does to the world. *)
Definition afterStep {W : Type} `{Writer W} (fl : Flags)
  (l : operations.ListFormat) (s : fs.Step) (w : World W) : World W :=
  mkWorld (writeAll (stepLines fl l s) (out w))
    (fs.mkDiag (fs.errors (diag w) + Z.of_nat (List.length (stepErrors [s])))
       (fs.logged (diag w) ++ stepErrors [s])%list)
    (walks w).

(** The one traversal [Lsf] requests: from the root, single level unless
    recursive. *)
Definition theCall (fl : Flags) : WalkCall :=
  mkWalkCall "" false (operations.ConfigMaxDepth (recurse fl)).

(** A step that carries an error. *)
Definition failed (s : fs.Step) : bool :=
  match fs.err s with Some _ => true | None => false end.

(** ** Sample data *)

(** The outcome of a hash lookup that reports the hex string [s]. *)
Definition present (s : string) : HashOutcome :=
  match hexOf s with
  | Some sum => HashPresent sum
  | None => HashNotAvailable
  end.

Definition emptyWorld {W : Type} (o : W) : World W :=
  mkWorld o (fs.mkDiag 0 []) [].

Definition fileA : fs.DirEntry :=
  fs.IsObject (fs.mkObject "a" (Some (mkTime 2020 1 1 0 0 0)) 10
                 (fun _ => HashNotSupported)).

Definition dirB : fs.DirEntry := fs.IsDirectory (fs.mkDirectory "b" None).

(** A file of a backend that stores no hash for it. *)
Definition objC : fs.Object :=
  fs.mkObject "b/c" (Some (mkTime 2016 6 25 18 55 41)) 60295
    (fun _ => HashNotAvailable).

Definition fileC : fs.DirEntry := fs.IsObject objC.

Definition objD : fs.Object :=
  fs.mkObject "d" (Some (mkTime 2016 6 25 18 55 43)) 90613
    (fun ht =>
       match ht with
       | hash.MD5 => present "cd65ac234e6fea5925974a51cdd865cc"
       | hash.SHA1 => HashFailed
       | hash.Dropbox => HashNotSupported
       end).

Definition fileD : fs.DirEntry := fs.IsObject objD.

Definition ErrDenied : Error := ErrListing "permission denied".

(** A traversal of three steps; the second one failed, and still came
    with a batch. *)
Definition sampleFs : fs.Fs :=
  fs.mkFs (fun _ _ _ =>
    fs.mkTraversal None
      [ fs.mkStep "" [fileA; dirB] None;
        fs.mkStep "b" [fileC] (Some ErrDenied);
        fs.mkStep "e" [fileD] None ]).

(** A backend whose traversal cannot be started. *)
Definition downFs : fs.Fs :=
  fs.mkFs (fun _ _ _ =>
    fs.mkTraversal (Some (ErrListing "directory not found")) []).

Definition withFormat (s : string) (fl : Flags) : Flags :=
  mkFlags (runes s) (separator fl) (dirSlash fl) (recurse fl)
    (hashType fl) (filesOnly fl) (dirsOnly fl).

Definition withFilter (files dirs : bool) (fl : Flags) : Flags :=
  mkFlags (format fl) (separator fl) (dirSlash fl) (recurse fl)
    (hashType fl) files dirs.

Definition withSeparator (sep : string) (fl : Flags) : Flags :=
  mkFlags (format fl) sep (dirSlash fl) (recurse fl)
    (hashType fl) (filesOnly fl) (dirsOnly fl).

(** ** Further vocabulary *)

(** The records a run of [Lsf] adds to the diagnostic log: none when the
    format is refused or the traversal does not start, else one for each
    step that carries an error. *)
Definition Lsf_reports (fl : Flags) (fsrc : fs.Fs) : list fs.LogEntry :=
  match compile fl with
  | inl _ => []
  | inr _ =>
      match fs.start (traversalOf fl fsrc) with
      | Some _ => []
      | None => stepErrors (fs.steps (traversalOf fl fsrc))
      end
  end.

(** A writer that keeps every chunk handed to it, one per [Write]. *)
Definition Recorder := list string.

#[export] Instance Recorder_Writer : Writer Recorder :=
  fun r p => ((r ++ [p])%list, (Z.of_nat (String.length p), None)).

Definition withHashType (ht : hash.Type_) (fl : Flags) : Flags :=
  mkFlags (format fl) (separator fl) (dirSlash fl) (recurse fl)
    ht (filesOnly fl) (dirsOnly fl).

(** The entries the traversal delivered without an error, in order. *)
Definition delivered (ss : list fs.Step) : fs.DirEntries :=
  flat_map (fun s =>
    match fs.err s with
    | Some _ => []
    | None => fs.entries s
    end) ss.

(** A backend whose traversals keep only the steps that satisfy [p]. *)
Definition keepSteps (p : fs.Step -> bool) (f : fs.Fs) : fs.Fs :=
  fs.mkFs (fun path includeAll maxLevel =>
    let t := fs.traverse f path includeAll maxLevel in
    fs.mkTraversal (fs.start t) (filter p (fs.steps t))).

(** A backend whose batches keep only the entries that satisfy [p]. *)
Definition keepEntries (p : fs.DirEntry -> bool) (f : fs.Fs) : fs.Fs :=
  fs.mkFs (fun path includeAll maxLevel =>
    let t := fs.traverse f path includeAll maxLevel in
    fs.mkTraversal (fs.start t)
      (map (fun s => fs.mkStep (fs.path s) (filter p (fs.entries s)) (fs.err s))
         (fs.steps t))).

(** The line of a listing of names: the path, followed by a slash for a
    directory when [slash] is set. *)
Definition nameLine (slash : bool) (entry : fs.DirEntry) : string :=
  if fs.isDirectory entry && slash
  then fs.Remote entry ++ "/"
  else fs.Remote entry.

Definition isFile (entry : fs.DirEntry) : bool := negb (fs.isDirectory entry).

(** The listing of the help text ([rclone lsf swift:bucket]). *)
Definition md5 (sum : string) : hash.Type_ -> HashOutcome :=
  fun ht =>
    match ht with
    | hash.MD5 => present sum
    | _ => HashNotSupported
    end.

Definition bucket : fs.DirEntries :=
  [ fs.IsObject (fs.mkObject "bevajer5jef" (Some (mkTime 2016 6 25 18 55 41))
                   60295 (md5 "7908e352297f0f530b84a756f188baa3"));
    fs.IsObject (fs.mkObject "canole" (Some (mkTime 2016 6 25 18 55 43))
                   90613 (md5 "cd65ac234e6fea5925974a51cdd865cc"));
    fs.IsObject (fs.mkObject "diwogej7" (Some (mkTime 2016 6 25 18 55 43))
                   94467 (md5 "03b5341b4f234b9d984d03ad076bae91"));
    fs.IsDirectory (fs.mkDirectory "ferejej3gux"
                      (Some (mkTime 2018 4 26 8 52 53)));
    fs.IsObject (fs.mkObject "fubuwic" (Some (mkTime 2016 6 25 18 55 40))
                   37600 (md5 "8fd37c3810dd660778137ac3a66cc06d")) ].

Definition swiftBucket : fs.Fs :=
  fs.mkFs (fun _ _ _ => fs.mkTraversal None [fs.mkStep "" bucket None]).

(** * Properties *)

(** ** The spec's examples, evaluated *)

Example spec_example_tsp :
  Lsf_lines (withFormat "tsp" defaultFlags)
    (fs.mkFs (fun _ _ _ =>
       fs.mkTraversal None [fs.mkStep "" [fileA; dirB] None]))
  = ["2020-01-01 00:00:00;10;a"; ";0;b/"].
Proof. reflexivity. Qed.

Example spec_example_hp :
  Lsf_lines
    (withFormat "hp" (withFilter true false (withSeparator "  " defaultFlags)))
    (fs.mkFs (fun _ _ _ =>
       fs.mkTraversal None [fs.mkStep "" [dirB; fileA; dirB] None]))
  = ["UNSUPPORTED  a"].
Proof. reflexivity. Qed.

(** ** Timestamps *)

Lemma zeros_length (n : nat) : String.length (operations.zeros n) = n.
Proof. induction n as [|n IH]; cbn; congruence. Qed.

(** Padding reaches the width and never cuts. *)
Lemma pad_length (w : nat) (s : string) :
  String.length (operations.pad w s) = Nat.max w (String.length s).
Proof.
  assert (A : forall x y : string,
             String.length (x ++ y) = (String.length x + String.length y)%nat)
    by (induction x; cbn; intros; congruence).
  unfold operations.pad. rewrite A, zeros_length. lia.
Qed.

Example formatTime_year_1 :
  operations.formatTime (mkTime 1 1 1 0 0 0) = "0001-01-01 00:00:00" /\
  operations.formatTime (mkTime 2018 4 26 8 52 53) = "2018-04-26 08:52:53".
Proof. split; reflexivity. Qed.

(** ** The format loop *)

Lemma in_alphabet_codeOf (ht : hash.Type_) (c : rune) :
  in_alphabet c = true <-> codeOf ht c <> None.
Proof.
  unfold in_alphabet, codeOf, fieldTable, runes. cbn.
  destruct (c =? 112)%Z, (c =? 116)%Z, (c =? 115)%Z, (c =? 104)%Z;
    cbn; split; congruence.
Qed.

Lemma not_in_alphabet_codeOf (ht : hash.Type_) (c : rune) :
  in_alphabet c = false <-> codeOf ht c = None.
Proof.
  pose proof (in_alphabet_codeOf ht c) as [H1 H2].
  destruct (in_alphabet c), (codeOf ht c); split; try congruence.
  - intros _. exfalso. now apply H1.
  - intros _. exfalso. assert (false = true) by (apply H2; discriminate).
    discriminate.
Qed.

(** One turn of the loop, read through the table of field codes. *)
Lemma Lsf_format_cons (ht : hash.Type_) (c : rune) (rest : list rune)
  (l : operations.ListFormat) :
  Lsf_format ht (c :: rest) l =
  match codeOf ht c with
  | Some code => Lsf_format ht rest (operations.AppendOutput l code)
  | None => inl (Errorf "Unknown format character %q" c)
  end.
Proof.
  unfold codeOf, fieldTable. cbn.
  destruct (Z.eqb_spec c 112) as [->|Hp]; [reflexivity|].
  destruct (Z.eqb_spec c 116) as [->|Ht]; [reflexivity|].
  destruct (Z.eqb_spec c 115) as [->|Hs]; [reflexivity|].
  destruct (Z.eqb_spec c 104) as [->|Hh]; reflexivity.
Qed.

Lemma Lsf_format_ok (ht : hash.Type_) (chars : list rune) :
  forallb in_alphabet chars = true ->
  forall l, exists codes,
    map (codeOf ht) chars = map Some codes /\
    Lsf_format ht chars l =
    inr (operations.mkListFormat (operations.separator l)
           (operations.dirSlash l) (operations.output l ++ codes)).
Proof.
  induction chars as [|c rest IH]; intros Hall l.
  - exists []. split; [reflexivity|]. cbn. rewrite app_nil_r. now destruct l.
  - cbn in Hall. apply andb_true_iff in Hall as [Hc Hrest].
    rewrite Lsf_format_cons.
    apply (in_alphabet_codeOf ht) in Hc.
    destruct (codeOf ht c) as [code|] eqn:E; [|congruence].
    destruct (IH Hrest (operations.AppendOutput l code)) as (codes & Hm & Hf).
    exists (code :: codes). split.
    + cbn. now rewrite E, Hm.
    + rewrite Hf. cbn. now rewrite <- app_assoc.
Qed.

Lemma Lsf_format_unknown (ht : hash.Type_) (chars : list rune) (c : rune) :
  find (fun c => negb (in_alphabet c)) chars = Some c ->
  forall l, Lsf_format ht chars l =
            inl (Errorf "Unknown format character %q" c).
Proof.
  induction chars as [|c0 rest IH]; intros Hf l; [discriminate|].
  rewrite Lsf_format_cons. cbn [find] in Hf.
  destruct (in_alphabet c0) eqn:E; cbn in Hf.
  - apply (in_alphabet_codeOf ht) in E.
    destruct (codeOf ht c0); [now apply IH | congruence].
  - injection Hf as <-. apply (not_in_alphabet_codeOf ht) in E. now rewrite E.
Qed.

(** The loop never touches the separator or the directory slash. *)
Lemma Lsf_format_config (ht : hash.Type_) (chars : list rune) :
  forall l l', Lsf_format ht chars l = inr l' ->
    operations.separator l' = operations.separator l /\
    operations.dirSlash l' = operations.dirSlash l.
Proof.
  induction chars as [|c rest IH]; intros l l' Hl.
  - cbn in Hl. injection Hl as <-. now split.
  - rewrite Lsf_format_cons in Hl.
    destruct (codeOf ht c); [|discriminate].
    now apply IH in Hl.
Qed.

Lemma extract_config (l l' : operations.ListFormat) (entry : fs.DirEntry)
  (code : operations.FieldCode) :
  operations.dirSlash l = operations.dirSlash l' ->
  operations.extract l entry code = operations.extract l' entry code.
Proof. intros E. destruct code; cbn; now rewrite ?E. Qed.

Lemma Lsf_unfold {W : Type} `{Writer W} (fl : Flags) (fsrc : fs.Fs)
  (w : World W) :
  Lsf fl fsrc w =
  match compile fl with
  | inl e => (Some e, w)
  | inr l =>
      walk.Walk fsrc "" false (operations.ConfigMaxDepth (recurse fl))
        (Lsf_fn fl l) w
  end.
Proof. reflexivity. Qed.

(** ** The callback and the traversal *)

Section Listing.

Context {W : Type} `{Writer W}.
Variable fl : Flags.
Variable l : operations.ListFormat.

Lemma writeAll_app (xs ys : list string) (o : W) :
  writeAll (xs ++ ys) o = writeAll ys (writeAll xs o).
Proof. unfold writeAll. apply fold_left_app. Qed.

(** One turn of the loop over the entries. *)
Lemma Lsf_entries_cons (entry : fs.DirEntry) (rest : fs.DirEntries)
  (w : World W) :
  Lsf_entries fl l (entry :: rest) w =
  Lsf_entries fl l rest
    (if keep fl entry
     then println w (operations.ListFormatted entry l)
     else w).
Proof.
  cbn [Lsf_entries]. unfold keep.
  destruct (fs.isDirectory entry);
    [destruct (filesOnly fl) | destruct (dirsOnly fl)]; reflexivity.
Qed.

(** The loop over the entries writes the rendered lines of the
    survivors, in order, and touches nothing but the sink. *)
Lemma Lsf_entries_rendered (entries : fs.DirEntries) :
  forall w : World W,
    Lsf_entries fl l entries w =
    set_out w (writeAll (rendered fl l entries) (out w)).
Proof.
  induction entries as [|entry rest IH]; intros w.
  - now destruct w.
  - rewrite Lsf_entries_cons, IH.
    unfold rendered, survivors. cbn [filter].
    destruct (keep fl entry); reflexivity.
Qed.

Lemma Lsf_fn_ok (path : string) (entries : fs.DirEntries) (w : World W) :
  Lsf_fn fl l path entries None w =
  (None, set_out w (writeAll (rendered fl l entries) (out w))).
Proof. unfold Lsf_fn. now rewrite Lsf_entries_rendered. Qed.

Lemma Lsf_fn_err (path : string) (entries : fs.DirEntries) (e : Error)
  (w : World W) :
  Lsf_fn fl l path entries (Some e) w =
  (None, set_diag w (fs.Errorf path "error listing: %v" e
                       (fs.CountError e (diag w)))).
Proof. reflexivity. Qed.

Lemma Lsf_fn_step (s : fs.Step) (w : World W) :
  Lsf_fn fl l (fs.path s) (fs.entries s) (fs.err s) w =
  (None, afterStep fl l s w).
Proof.
  unfold afterStep, stepLines, stepErrors. cbn [flat_map].
  destruct (fs.err s) as [e|].
  - rewrite Lsf_fn_err. destruct w as [o [n lg] ws]. reflexivity.
  - rewrite Lsf_fn_ok. destruct w as [o [n lg] ws]. cbn.
    now rewrite Z.add_0_r, app_nil_r.
Qed.

(** The traversal delivers every step: the callback never stops it. *)
Lemma deliver_Lsf_fn (ss : list fs.Step) :
  forall w : World W,
    walk.deliver (Lsf_fn fl l) ss w =
    (None,
     mkWorld (writeAll (flat_map (stepLines fl l) ss) (out w))
       (fs.mkDiag (fs.errors (diag w) + Z.of_nat (List.length (stepErrors ss)))
          (fs.logged (diag w) ++ stepErrors ss)%list)
       (walks w)).
Proof.
  induction ss as [|s rest IH]; intros w.
  - destruct w as [o [n lg] ws]. cbn. now rewrite Z.add_0_r, app_nil_r.
  - cbn [walk.deliver]. rewrite Lsf_fn_step, IH.
    unfold afterStep. cbn [out diag walks fs.errors fs.logged flat_map].
    rewrite writeAll_app.
    replace (stepErrors (s :: rest))
      with (stepErrors [s] ++ stepErrors rest)%list
      by (unfold stepErrors; cbn [flat_map]; now rewrite app_nil_r).
    rewrite length_app, Nat2Z.inj_add, Z.add_assoc, app_assoc.
    reflexivity.
Qed.

Lemma deliver_eraseFailed (ss : list fs.Step) :
  forall w : World W,
    walk.deliver (Lsf_fn fl l) (map eraseFailed ss) w =
    walk.deliver (Lsf_fn fl l) ss w.
Proof.
  induction ss as [|s rest IH]; intros w; [reflexivity|].
  cbn [map walk.deliver].
  assert (E : Lsf_fn fl l (fs.path (eraseFailed s)) (fs.entries (eraseFailed s))
                (fs.err (eraseFailed s)) w
              = Lsf_fn fl l (fs.path s) (fs.entries s) (fs.err s) w).
  { destruct s as [p es [e|]]; reflexivity. }
  rewrite E, Lsf_fn_step. apply IH.
Qed.

End Listing.

(** ** The whole of [Lsf] *)

Section Whole.

Context {W : Type} `{Writer W}.

(** Every run of [Lsf], by cases on the format and on the start of the
    traversal. *)
Lemma Lsf_world (fl : Flags) (fsrc : fs.Fs) (w : World W) :
  Lsf fl fsrc w =
  match compile fl with
  | inl e => (Some e, w)
  | inr l =>
      match fs.start (traversalOf fl fsrc) with
      | Some e => (Some e, mkWorld (out w) (diag w) (walks w ++ [theCall fl]))
      | None =>
          let ss := fs.steps (traversalOf fl fsrc) in
          (None,
           mkWorld (writeAll (flat_map (stepLines fl l) ss) (out w))
             (fs.mkDiag
                (fs.errors (diag w) + Z.of_nat (List.length (stepErrors ss)))
                (fs.logged (diag w) ++ stepErrors ss)%list)
             (walks w ++ [theCall fl]))
      end
  end.
Proof.
  rewrite Lsf_unfold. destruct (compile fl) as [e|l]; [reflexivity|].
  unfold walk.Walk. fold (traversalOf fl fsrc).
  destruct (fs.start (traversalOf fl fsrc)) as [e|]; [reflexivity|].
  now rewrite deliver_Lsf_fn.
Qed.

Lemma stepErrors_length (ss : list fs.Step) :
  List.length (stepErrors ss) = List.length (filter failed ss).
Proof.
  induction ss as [|s rest IH]; [reflexivity|].
  unfold stepErrors, failed in *. cbn [flat_map filter].
  destruct (fs.err s); cbn; now rewrite IH.
Qed.

End Whole.

Lemma survivors_none (fl : Flags) (entries : fs.DirEntries) :
  filesOnly fl = true -> dirsOnly fl = true -> survivors fl entries = [].
Proof.
  intros Hf Hd. induction entries as [|e rest IH]; [reflexivity|].
  unfold survivors in *. cbn [filter].
  assert (K : keep fl e = false)
    by (unfold keep; rewrite Hf, Hd; now destruct (fs.isDirectory e)).
  now rewrite K.
Qed.

Lemma survivors_all (fl : Flags) (entries : fs.DirEntries) :
  filesOnly fl = false -> dirsOnly fl = false -> survivors fl entries = entries.
Proof.
  intros Hf Hd. induction entries as [|e rest IH]; [reflexivity|].
  unfold survivors in *. cbn [filter].
  assert (K : keep fl e = true)
    by (unfold keep; rewrite Hf, Hd; now destruct (fs.isDirectory e)).
  now rewrite K, IH.
Qed.

Lemma Lsf_format_inr_alphabet (ht : hash.Type_) (chars : list rune) :
  forall l l', Lsf_format ht chars l = inr l' ->
    forallb in_alphabet chars = true.
Proof.
  induction chars as [|c rest IH]; intros l l' Hl; [reflexivity|].
  rewrite Lsf_format_cons in Hl. cbn [forallb].
  destruct (codeOf ht c) as [code|] eqn:E; [|discriminate].
  apply andb_true_iff. split.
  - apply (in_alphabet_codeOf ht). congruence.
  - exact (IH _ _ Hl).
Qed.

Lemma fieldText_codes (fl : Flags) (entry : fs.DirEntry) (chars : list rune) :
  forall codes,
    map (codeOf (hashType fl)) chars = map Some codes ->
    map (fieldText fl entry) chars =
    map (operations.extract (renderConfig fl) entry) codes.
Proof.
  induction chars as [|c rest IH]; intros [|code codes] Hm;
    try discriminate; [reflexivity|].
  cbn in Hm. injection Hm as Hc Hrest.
  cbn [map]. unfold fieldText at 1. rewrite Hc. f_equal. now apply IH.
Qed.

(** The fields of a compiled format are those its characters select. *)
Lemma compile_fields (fl : Flags) (l : operations.ListFormat) :
  compile fl = inr l ->
  operations.separator l = separator fl /\
  forall entry,
    operations.fields entry l = map (fieldText fl entry) (format fl).
Proof.
  intros Hc. unfold compile in Hc.
  pose proof (Lsf_format_inr_alphabet _ _ _ _ Hc) as Hall.
  destruct (Lsf_format_ok (hashType fl) _ Hall (renderConfig fl))
    as (codes & Hm & Hf).
  rewrite Hc in Hf. injection Hf as ->. split; [reflexivity|].
  intros entry. unfold operations.fields. cbn.
  rewrite (fieldText_codes fl entry _ _ Hm).
  apply map_ext. intros code. now apply extract_config.
Qed.

(** ** The format string *)

(** C1: for every format string with at least one character outside
    {p,t,s,h}, [Lsf] returns the "Unknown format character" error that
    carries the first such character, and leaves the world as it found
    it: no traversal is requested, nothing is written to the sink, nothing
    is counted or logged. *)
Theorem Lsf_unknown_format_character {W : Type} `{Writer W}
  (fl : Flags) (fsrc : fs.Fs) (w : World W) :
  existsb (fun c => negb (in_alphabet c)) (format fl) = true ->
  exists c,
    find (fun c => negb (in_alphabet c)) (format fl) = Some c /\
    in_alphabet c = false /\
    Lsf fl fsrc w = (Some (Errorf "Unknown format character %q" c), w).
Proof.
  intros Hex.
  destruct (find (fun c => negb (in_alphabet c)) (format fl)) as [c|] eqn:Hf.
  - exists c. split; [reflexivity|].
    pose proof (find_some _ _ Hf) as [_ Hc].
    apply negb_true_iff in Hc. split; [exact Hc|].
    rewrite Lsf_unfold. unfold compile.
    now rewrite (Lsf_format_unknown _ _ _ Hf).
  - apply existsb_exists in Hex as (c & Hin & Hc).
    pose proof (find_none _ _ Hf c Hin) as Hn. cbv beta in Hn. congruence.
Qed.

Lemma Lsf_unknown_format_character_witness :
  existsb (fun c => negb (in_alphabet c))
    (format (withFormat "px" defaultFlags)) = true /\
  exists c,
    find (fun c => negb (in_alphabet c))
      (format (withFormat "px" defaultFlags)) = Some c /\
    in_alphabet c = false /\
    Lsf (withFormat "px" defaultFlags) sampleFs (emptyWorld (W := Buffer) "")
    = (Some (Errorf "Unknown format character %q" c), emptyWorld "").
Proof.
  split; [reflexivity|].
  exact (Lsf_unknown_format_character (withFormat "px" defaultFlags)
           sampleFs (emptyWorld "") eq_refl).
Defined.

(** C5: for every format string made of characters of {p,t,s,h} only,
    compilation succeeds ([Lsf] goes on to the traversal), and for every
    entry the fields of the rendered line are, position by position, the
    fields selected by the characters of the format string, a repeated
    character giving its field again; the line is these fields joined by
    the separator. *)
Theorem Lsf_format_alphabet (fl : Flags) :
  forallb in_alphabet (format fl) = true ->
  exists l,
    compile fl = inr l /\
    (forall entry,
       operations.fields entry l = map (fieldText fl entry) (format fl) /\
       operations.ListFormatted entry l =
       String.concat (separator fl) (map (fieldText fl entry) (format fl))) /\
    (forall (W : Type) (H : Writer W) (fsrc : fs.Fs) (w : World W),
       Lsf fl fsrc w =
       walk.Walk fsrc "" false (operations.ConfigMaxDepth (recurse fl))
         (Lsf_fn fl l) w).
Proof.
  intros Hall.
  destruct (Lsf_format_ok (hashType fl) _ Hall (renderConfig fl))
    as (codes & _ & Hf).
  fold (compile fl) in Hf.
  eexists. split; [exact Hf|].
  destruct (compile_fields fl _ Hf) as [Hsep Hfields]. split.
  - intros entry. split; [apply Hfields|].
    unfold operations.ListFormatted. now rewrite Hsep, Hfields.
  - intros W H fsrc w. rewrite Lsf_unfold. now rewrite Hf.
Qed.

Lemma Lsf_format_alphabet_witness :
  forallb in_alphabet (format (withFormat "pphp" defaultFlags)) = true /\
  exists l,
    compile (withFormat "pphp" defaultFlags) = inr l /\
    (forall entry,
       operations.fields entry l =
       map (fieldText (withFormat "pphp" defaultFlags) entry) (runes "pphp") /\
       operations.ListFormatted entry l =
       String.concat ";"
         (map (fieldText (withFormat "pphp" defaultFlags) entry)
            (runes "pphp"))) /\
    (forall (W : Type) (H : Writer W) (fsrc : fs.Fs) (w : World W),
       Lsf (withFormat "pphp" defaultFlags) fsrc w =
       walk.Walk fsrc "" false 1
         (Lsf_fn (withFormat "pphp" defaultFlags) l) w).
Proof.
  split; [reflexivity|].
  exact (Lsf_format_alphabet (withFormat "pphp" defaultFlags) eq_refl).
Defined.

(** A rendered line, for the record: path twice, hash, path. *)
Example pphp_line :
  Lsf_lines (withFormat "pphp" defaultFlags)
    (fs.mkFs (fun _ _ _ => fs.mkTraversal None [fs.mkStep "" [fileD] None]))
  = ["d;d;cd65ac234e6fea5925974a51cdd865cc;d"].
Proof. reflexivity. Qed.

(** C6, as the code has it: the empty format string compiles, to the
    empty FormatSpec; [Lsf] returns no format error and goes on to the
    traversal, where every entry is rendered as the empty line. *)
Theorem Lsf_empty_format (fl : Flags) :
  format fl = [] ->
  compile fl = inr (renderConfig fl) /\
  operations.output (renderConfig fl) = [] /\
  (forall entry, operations.ListFormatted entry (renderConfig fl) = "") /\
  (forall (W : Type) (H : Writer W) (fsrc : fs.Fs) (w : World W),
     Lsf fl fsrc w =
     walk.Walk fsrc "" false (operations.ConfigMaxDepth (recurse fl))
       (Lsf_fn fl (renderConfig fl)) w).
Proof.
  intros Hf.
  assert (Hc : compile fl = inr (renderConfig fl))
    by (unfold compile; now rewrite Hf).
  repeat split; try assumption; try reflexivity.
  intros W H fsrc w. rewrite Lsf_unfold. now rewrite Hc.
Qed.

Lemma Lsf_empty_format_witness :
  format (withFormat "" defaultFlags) = [] /\
  compile (withFormat "" defaultFlags) = inr (operations.mkListFormat ";" true []) /\
  operations.output (renderConfig (withFormat "" defaultFlags)) = [] /\
  (forall entry,
     operations.ListFormatted entry (renderConfig (withFormat "" defaultFlags))
     = "") /\
  (forall (W : Type) (H : Writer W) (fsrc : fs.Fs) (w : World W),
     Lsf (withFormat "" defaultFlags) fsrc w =
     walk.Walk fsrc "" false 1
       (Lsf_fn (withFormat "" defaultFlags) (operations.mkListFormat ";" true []))
       w).
Proof.
  split; [reflexivity|].
  exact (Lsf_empty_format (withFormat "" defaultFlags) eq_refl).
Defined.

(** C6 does not hold as the specification words it (a FormatSpec is
    never empty): with the empty format [Lsf] returns [nil], having
    requested the traversal and written one empty line for each of the
    three entries delivered. *)
Lemma Lsf_empty_format_counterexample :
  format (withFormat "" defaultFlags) = [] /\
  Lsf (withFormat "" defaultFlags) sampleFs (emptyWorld (W := Buffer) "")
  = (None,
     mkWorld (newline ++ newline ++ newline)
       (fs.mkDiag 1 [fs.mkLog "b" "error listing: %v" ErrDenied])
       [mkWalkCall "" false 1]).
Proof. split; reflexivity. Qed.

(** ** The listing *)

(** In a buffer the listing is the concatenation of its lines, each
    newline-terminated. *)
Lemma writeAll_Buffer (lines : list string) (b : Buffer) :
  writeAll lines b
  = b ++ String.concat "" (map (fun line => line ++ newline) lines).
Proof.
  revert b. induction lines as [|line rest IH]; intros b.
  - cbn. clear. induction b; cbn; congruence.
  - change (writeAll (line :: rest) b)
      with (writeAll rest (b ++ (line ++ newline))).
    rewrite IH. cbn [map String.concat].
    assert (A : forall x y z : string, (x ++ y) ++ z = x ++ y ++ z)
      by (induction x; cbn; congruence).
    rewrite A. f_equal. destruct rest; cbn [map]; [|reflexivity].
    cbn. clear. induction (line ++ newline); cbn; congruence.
Qed.

(** C7: for every run of [Lsf] and every writer, the sink ends in the
    state reached by writing, one [Write] per line and each line followed
    by a newline, exactly the rendered lines of the surviving entries of
    the success steps, in the order of the steps and of the entries within
    each step; nothing else is written (and nothing at all when the format
    is refused or the traversal does not start).  In a buffer, what [Lsf]
    appends is the concatenation of these newline-terminated lines. *)
Theorem Lsf_output_lines {W : Type} `{Writer W}
  (fl : Flags) (fsrc : fs.Fs) (w : World W) (b : World Buffer) :
  out (snd (Lsf fl fsrc w)) = writeAll (Lsf_lines fl fsrc) (out w) /\
  out (snd (Lsf fl fsrc b))
  = out b ++ String.concat ""
               (map (fun line => line ++ newline) (Lsf_lines fl fsrc)).
Proof.
  assert (G : forall (V : Type) (HV : Writer V) (v : World V),
             out (snd (Lsf fl fsrc v)) = writeAll (Lsf_lines fl fsrc) (out v)).
  { intros V HV v. rewrite Lsf_world. unfold Lsf_lines.
    destruct (compile fl) as [e|l]; [reflexivity|].
    destruct (fs.start (traversalOf fl fsrc)); reflexivity. }
  split; [apply G|]. rewrite G. apply writeAll_Buffer.
Qed.

(** C2: when the format compiles and the traversal starts, [Lsf] returns
    [nil] however many steps carry an error; the error counter grows by
    the number of error steps, the diagnostic log receives one record per
    error step, in order, and the lines of all the success steps, before
    and after the failed ones, are written. *)
Theorem Lsf_step_errors_reported {W : Type} `{Writer W}
  (fl : Flags) (fsrc : fs.Fs) (w : World W) (l : operations.ListFormat) :
  compile fl = inr l ->
  fs.start (traversalOf fl fsrc) = None ->
  fst (Lsf fl fsrc w) = None /\
  fs.errors (diag (snd (Lsf fl fsrc w)))
  = fs.errors (diag w)
    + Z.of_nat (List.length (filter failed (fs.steps (traversalOf fl fsrc)))) /\
  fs.logged (diag (snd (Lsf fl fsrc w)))
  = (fs.logged (diag w) ++ stepErrors (fs.steps (traversalOf fl fsrc)))%list /\
  out (snd (Lsf fl fsrc w))
  = writeAll (flat_map (stepLines fl l) (fs.steps (traversalOf fl fsrc)))
      (out w).
Proof.
  intros Hc Hs. rewrite Lsf_world, Hc, Hs. cbn.
  now rewrite stepErrors_length.
Qed.

Lemma Lsf_step_errors_reported_witness :
  compile defaultFlags = inr (operations.mkListFormat ";" true [operations.CodePath]) /\
  fs.start (traversalOf defaultFlags sampleFs) = None /\
  fst (Lsf defaultFlags sampleFs (emptyWorld (W := Buffer) "")) = None /\
  fs.errors (diag (snd (Lsf defaultFlags sampleFs (emptyWorld (W := Buffer) ""))))
  = 1 /\
  fs.logged (diag (snd (Lsf defaultFlags sampleFs (emptyWorld (W := Buffer) ""))))
  = [fs.mkLog "b" "error listing: %v" ErrDenied] /\
  out (snd (Lsf defaultFlags sampleFs (emptyWorld (W := Buffer) "")))
  = "a" ++ newline ++ "b/" ++ newline ++ "d" ++ newline.
Proof.
  split; [reflexivity|]. split; [reflexivity|].
  exact (Lsf_step_errors_reported defaultFlags sampleFs (emptyWorld "")
           (operations.mkListFormat ";" true [operations.CodePath])
           eq_refl eq_refl).
Defined.

(** C10: on a step that carries an error the callback returns [nil]
    having only counted and logged the error; the sink is untouched
    whatever batch came with the step, so that erasing the batches of the
    error steps of a traversal changes nothing to a run of [Lsf]. *)
Theorem Lsf_fn_error_step {W : Type} `{Writer W}
  (fl : Flags) (l : operations.ListFormat) (path : string)
  (entries : fs.DirEntries) (e : Error) (w : World W) :
  Lsf_fn fl l path entries (Some e) w = Lsf_fn fl l path [] (Some e) w /\
  fst (Lsf_fn fl l path entries (Some e) w) = None /\
  out (snd (Lsf_fn fl l path entries (Some e) w)) = out w /\
  diag (snd (Lsf_fn fl l path entries (Some e) w))
  = fs.Errorf path "error listing: %v" e (fs.CountError e (diag w)) /\
  (forall fsrc : fs.Fs, Lsf fl (eraseFailedFs fsrc) w = Lsf fl fsrc w).
Proof.
  rewrite !Lsf_fn_err. repeat split.
  intros fsrc. rewrite !Lsf_unfold.
  destruct (compile fl) as [e'|l']; [reflexivity|].
  unfold walk.Walk, eraseFailedFs. cbn.
  destruct (fs.start _); [reflexivity|].
  apply deliver_eraseFailed.
Qed.

(** C4: on a success step the callback writes the rendered lines of the
    survivors of the batch, one line each; with [filesOnly] no survivor is
    a Directory, with [dirsOnly] no survivor is a File, and with neither
    every entry of the batch survives, so that each has its line. *)
Theorem Lsf_fn_filter {W : Type} `{Writer W}
  (fl : Flags) (l : operations.ListFormat) (path : string)
  (entries : fs.DirEntries) (w : World W) :
  Lsf_fn fl l path entries None w
  = (None, set_out w (writeAll (rendered fl l entries) (out w))) /\
  rendered fl l entries
  = map (fun entry => operations.ListFormatted entry l)
      (filter (keep fl) entries) /\
  (filesOnly fl = true ->
   Forall (fun entry => fs.isDirectory entry = false) (filter (keep fl) entries)) /\
  (dirsOnly fl = true ->
   Forall (fun entry => fs.isDirectory entry = true) (filter (keep fl) entries)) /\
  (filesOnly fl = false -> dirsOnly fl = false ->
   filter (keep fl) entries = entries /\
   List.length (rendered fl l entries) = List.length entries).
Proof.
  split; [apply Lsf_fn_ok|]. split; [reflexivity|].
  split; [|split].
  - intros Hf. apply Forall_forall. intros entry Hin.
    apply filter_In in Hin as [_ K]. unfold keep in K. rewrite Hf in K.
    now destruct (fs.isDirectory entry).
  - intros Hd. apply Forall_forall. intros entry Hin.
    apply filter_In in Hin as [_ K]. unfold keep in K. rewrite Hd in K.
    now destruct (fs.isDirectory entry).
  - intros Hf Hd. pose proof (survivors_all fl entries Hf Hd) as Hall.
    split; [exact Hall|].
    unfold rendered. now rewrite length_map, Hall.
Qed.

(** C9: with [filesOnly] and [dirsOnly] both set, when the format
    compiles and the traversal starts, [Lsf] returns [nil] and the sink is
    left as it was: every entry is filtered out. *)
Theorem Lsf_both_filters {W : Type} `{Writer W}
  (fl : Flags) (fsrc : fs.Fs) (w : World W) (l : operations.ListFormat) :
  filesOnly fl = true ->
  dirsOnly fl = true ->
  compile fl = inr l ->
  fs.start (traversalOf fl fsrc) = None ->
  fst (Lsf fl fsrc w) = None /\
  out (snd (Lsf fl fsrc w)) = out w /\
  Lsf_lines fl fsrc = [] /\
  forall entry, keep fl entry = false.
Proof.
  intros Hf Hd Hc Hs.
  assert (Hn : flat_map (stepLines fl l) (fs.steps (traversalOf fl fsrc)) = []).
  { induction (fs.steps (traversalOf fl fsrc)) as [|s rest IH]; [reflexivity|].
    cbn [flat_map]. rewrite IH, app_nil_r. unfold stepLines, rendered.
    destruct (fs.err s); [reflexivity|]. now rewrite survivors_none. }
  rewrite Lsf_world. unfold Lsf_lines. rewrite Hc, Hs, Hn.
  split; [reflexivity|]. split; [reflexivity|]. split; [reflexivity|].
  intros entry. unfold keep. rewrite Hf, Hd. now destruct (fs.isDirectory entry).
Qed.

Lemma Lsf_both_filters_witness :
  filesOnly (withFilter true true defaultFlags) = true /\
  dirsOnly (withFilter true true defaultFlags) = true /\
  compile (withFilter true true defaultFlags)
  = inr (operations.mkListFormat ";" true [operations.CodePath]) /\
  fs.start (traversalOf (withFilter true true defaultFlags) sampleFs) = None /\
  fst (Lsf (withFilter true true defaultFlags) sampleFs
         (emptyWorld (W := Buffer) "")) = None /\
  out (snd (Lsf (withFilter true true defaultFlags) sampleFs
              (emptyWorld (W := Buffer) ""))) = "" /\
  Lsf_lines (withFilter true true defaultFlags) sampleFs = [] /\
  forall entry, keep (withFilter true true defaultFlags) entry = false.
Proof.
  do 4 (split; [reflexivity|]).
  exact (Lsf_both_filters (withFilter true true defaultFlags) sampleFs
           (emptyWorld "")
           (operations.mkListFormat ";" true [operations.CodePath])
           eq_refl eq_refl eq_refl eq_refl).
Defined.

(** ** A sink that refuses writes *)

(** C3, as the code has it: the answer of a write is dropped.  Whatever
    the writer, the value [Lsf] returns is decided by the format and by the
    start of the traversal alone, never by a write, and every line of the
    listing is still handed to the writer, those after a refused write
    included. *)
Theorem Lsf_write_errors_ignored {W : Type} `{Writer W}
  (fl : Flags) (fsrc : fs.Fs) (w : World W) :
  fst (Lsf fl fsrc w)
  = match compile fl with
    | inl e => Some e
    | inr _ => fs.start (traversalOf fl fsrc)
    end /\
  (forall line : string,
     println w line = set_out w (fst (Write (out w) (line ++ newline)))) /\
  out (snd (Lsf fl fsrc w)) = writeAll (Lsf_lines fl fsrc) (out w).
Proof.
  rewrite Lsf_world. unfold Lsf_lines.
  destruct (compile fl) as [e|l]; [repeat split|].
  destruct (fs.start (traversalOf fl fsrc)); repeat split.
Qed.

(** C3 does not hold as the specification words it (an unwritable sink
    aborts the listing): on a pipe that refuses every write the first line
    is refused with an error, yet [Lsf] returns [nil] and has gone on to
    hand the two later lines to the pipe. *)
Lemma Lsf_write_error_counterexample :
  snd (fmt.Fprintln (mkPipe 0 [] []) "a") = (0, Some ErrClosedPipe) /\
  fst (Lsf defaultFlags sampleFs (emptyWorld (mkPipe 0 [] []))) = None /\
  out (snd (Lsf defaultFlags sampleFs (emptyWorld (mkPipe 0 [] []))))
  = mkPipe 0 [] ["a" ++ newline; "b/" ++ newline; "d" ++ newline].
Proof. repeat split. Qed.

(** ** The hash field *)

Lemma hexText_isHex (sum : HexString) : isHex (hexText sum) = true.
Proof.
  unfold isHex, hexText. rewrite list_ascii_of_string_of_list_ascii.
  apply forallb_forall. intros c Hin.
  apply in_map_iff in Hin as (d & <- & _). now destruct d.
Qed.

Lemma hexText_nonempty (sum : HexString) : hexText sum <> "".
Proof. unfold hexText. cbn. discriminate. Qed.

(** Reading back what was printed gives the hash value. *)
Lemma hexOf_hexText (sum : HexString) : hexOf (hexText sum) = Some sum.
Proof.
  assert (D : forall ds, hexDigitsOf (string_of_list_ascii (map hexChar ds))
                         = Some ds).
  { induction ds as [|d rest IH]; [reflexivity|].
    cbn [map string_of_list_ascii hexDigitsOf]. rewrite IH.
    now destruct d. }
  destruct sum as [d ds]. unfold hexOf, hexText. cbn [hexHead hexTail].
  now rewrite D.
Qed.

(** C8, as the help text has it: in the line of an entry, at every
    position where the format has [h], the field is, for a Directory, the
    empty string, and for a File: the hash of the File when it is present,
    a nonempty hex string that is neither of the two sentinels; the empty
    string when the hash is not available on the object; ["ERROR"] when
    reading it failed; ["UNSUPPORTED"] when the object does not support
    the hash type.  The line is the join of the fields by the separator. *)
Theorem hash_field_of_entry (fl : Flags) (l : operations.ListFormat)
  (entry : fs.DirEntry) (i : nat) :
  compile fl = inr l ->
  nth_error (format fl) i = Some (rune_of_ascii "h") ->
  operations.ListFormatted entry l
  = String.concat (separator fl) (operations.fields entry l) /\
  exists txt,
    nth_error (operations.fields entry l) i = Some txt /\
    match entry with
    | fs.IsDirectory _ => txt = ""
    | fs.IsObject o =>
        match fs.o_Hash o (hashType fl) with
        | HashPresent sum =>
            txt = hexText sum /\ txt <> "" /\ isHex txt = true /\
            txt <> "ERROR" /\ txt <> "UNSUPPORTED"
        | HashNotAvailable => txt = ""
        | HashFailed => txt = "ERROR"
        | HashNotSupported => txt = "UNSUPPORTED"
        end
    end.
Proof.
  intros Hc Hi.
  destruct (compile_fields fl l Hc) as [Hsep Hfields]. split.
  - unfold operations.ListFormatted. now rewrite Hsep.
  - exists (fieldText fl entry (rune_of_ascii "h")). split.
    + now rewrite Hfields, nth_error_map, Hi.
    + destruct entry as [o|d]; [|reflexivity].
      change (fieldText fl (fs.IsObject o) (rune_of_ascii "h"))
        with (operations.hashSum (hashType fl) o).
      unfold operations.hashSum.
      destruct (fs.o_Hash o (hashType fl)) as [sum| | |]; try reflexivity.
      pose proof (hexText_isHex sum) as Hhex.
      repeat split; [apply hexText_nonempty | exact Hhex | |];
        intros E; rewrite E in Hhex; discriminate Hhex.
Qed.

Lemma hash_field_of_entry_witness :
  compile (withFormat "hp" defaultFlags)
  = inr (operations.mkListFormat ";" true
           [operations.CodeHash hash.MD5; operations.CodePath]) /\
  nth_error (format (withFormat "hp" defaultFlags)) 0 = Some (rune_of_ascii "h") /\
  operations.ListFormatted fileD
    (operations.mkListFormat ";" true
       [operations.CodeHash hash.MD5; operations.CodePath])
  = String.concat ";"
      (operations.fields fileD
         (operations.mkListFormat ";" true
            [operations.CodeHash hash.MD5; operations.CodePath])) /\
  exists txt,
    nth_error
      (operations.fields fileD
         (operations.mkListFormat ";" true
            [operations.CodeHash hash.MD5; operations.CodePath])) 0
    = Some txt /\
    (txt = "cd65ac234e6fea5925974a51cdd865cc" /\ txt <> "" /\
     isHex txt = true /\ txt <> "ERROR" /\ txt <> "UNSUPPORTED").
Proof.
  split; [reflexivity|]. split; [reflexivity|].
  exact (hash_field_of_entry (withFormat "hp" defaultFlags)
           (operations.mkListFormat ";" true
              [operations.CodeHash hash.MD5; operations.CodePath])
           fileD 0 eq_refl eq_refl).
Defined.

(** The hash field of the entries of the samples, one for each outcome
    and one for a directory. *)
Example hash_fields_of_samples :
  map (fun entry =>
         nth_error
           (operations.fields entry
              (operations.mkListFormat ";" true
                 [operations.CodePath; operations.CodeHash hash.MD5])) 1)
    [fileD; fileC; fileA; dirB]
  = [Some "cd65ac234e6fea5925974a51cdd865cc"; Some ""; Some "UNSUPPORTED";
     Some ""] /\
  nth_error
    (operations.fields fileD
       (operations.mkListFormat ";" true [operations.CodeHash hash.SHA1])) 0
  = Some "ERROR".
Proof. split; reflexivity. Qed.

(** C8 does not hold as the specification words it (never the empty
    string for a File): a File whose hash is not available on the object
    is rendered with the empty string in the hash field. *)
Lemma hash_field_empty_counterexample :
  fs.isDirectory fileC = false /\
  compile (withFormat "hp" defaultFlags)
  = inr (operations.mkListFormat ";" true
           [operations.CodeHash hash.MD5; operations.CodePath]) /\
  operations.fields fileC
    (operations.mkListFormat ";" true
       [operations.CodeHash hash.MD5; operations.CodePath])
  = [""; "b/c"] /\
  operations.ListFormatted fileC
    (operations.mkListFormat ";" true
       [operations.CodeHash hash.MD5; operations.CodePath])
  = ";b/c".
Proof. repeat split. Qed.

(** * Further properties of the listing *)

(** The listings of the help text, reproduced. *)
Example help_default_listing :
  Lsf_lines defaultFlags swiftBucket
  = ["bevajer5jef"; "canole"; "diwogej7"; "ferejej3gux/"; "fubuwic"].
Proof. reflexivity. Qed.

Example help_tshp_listing :
  Lsf_lines (withFormat "tshp" (withSeparator "," defaultFlags)) swiftBucket
  = ["2016-06-25 18:55:41,60295,7908e352297f0f530b84a756f188baa3,bevajer5jef";
     "2016-06-25 18:55:43,90613,cd65ac234e6fea5925974a51cdd865cc,canole";
     "2016-06-25 18:55:43,94467,03b5341b4f234b9d984d03ad076bae91,diwogej7";
     "2018-04-26 08:52:53,0,,ferejej3gux/";
     "2016-06-25 18:55:40,37600,8fd37c3810dd660778137ac3a66cc06d,fubuwic"].
Proof. reflexivity. Qed.

Lemma writeAll_Recorder (lines : list string) (r : Recorder) :
  writeAll lines r
  = (r ++ map (fun line => (line ++ newline)%string) lines)%list.
Proof.
  revert r. induction lines as [|line rest IH]; intros r.
  - cbn. now rewrite app_nil_r.
  - change (writeAll (line :: rest) r)
      with (writeAll rest (r ++ [(line ++ newline)%string])%list).
    rewrite IH. cbn [map]. now rewrite <- app_assoc.
Qed.

Lemma stepErrors_format (ss : list fs.Step) :
  Forall (fun r => fs.log_format r = "error listing: %v") (stepErrors ss).
Proof.
  induction ss as [|s rest IH]; [constructor|].
  unfold stepErrors in *. cbn [flat_map].
  destruct (fs.err s); cbn; [constructor; [reflexivity|]|]; exact IH.
Qed.

(** ** The hash type *)

Lemma Lsf_format_hashType (ht ht' : hash.Type_) (chars : list rune) :
  ~ In (rune_of_ascii "h") chars ->
  forall l, Lsf_format ht chars l = Lsf_format ht' chars l.
Proof.
  induction chars as [|c rest IH]; intros Hn l; [reflexivity|].
  assert (Hc : c <> rune_of_ascii "h") by (intros ->; apply Hn; now left).
  assert (Hr : ~ In (rune_of_ascii "h") rest)
    by (intros Hin; apply Hn; now right).
  cbn [Lsf_format].
  apply Z.eqb_neq in Hc. rewrite Hc.
  destruct (c =? rune_of_ascii "p")%Z; [now apply IH|].
  destruct (c =? rune_of_ascii "t")%Z; [now apply IH|].
  destruct (c =? rune_of_ascii "s")%Z; [now apply IH|].
  reflexivity.
Qed.

(** X1: the hash type is read only at an [h] of the format: when the
    format has no [h], changing [hashType] changes nothing to a run of
    [Lsf]. *)
Theorem Lsf_hashType_unused {W : Type} `{Writer W}
  (fl : Flags) (ht : hash.Type_) (fsrc : fs.Fs) (w : World W) :
  ~ In (rune_of_ascii "h") (format fl) ->
  Lsf (withHashType ht fl) fsrc w = Lsf fl fsrc w.
Proof.
  intros Hn. rewrite !Lsf_world.
  assert (E : compile (withHashType ht fl) = compile fl)
    by (unfold compile; cbn; now apply Lsf_format_hashType).
  rewrite E. reflexivity.
Qed.

Lemma Lsf_hashType_unused_witness :
  ~ In (rune_of_ascii "h") (format (withFormat "tsp" defaultFlags)) /\
  Lsf (withHashType hash.SHA1 (withFormat "tsp" defaultFlags)) sampleFs
    (emptyWorld (W := Buffer) "")
  = Lsf (withFormat "tsp" defaultFlags) sampleFs (emptyWorld "").
Proof.
  assert (Hn : ~ In (rune_of_ascii "h") (format (withFormat "tsp" defaultFlags))).
  { cbn. intros [E|[E|[E|[]]]]; discriminate E. }
  split; [exact Hn|].
  exact (Lsf_hashType_unused (withFormat "tsp" defaultFlags) hash.SHA1
           sampleFs (emptyWorld "") Hn).
Defined.

(** ** Counter and log *)

(** X2: in every run of [Lsf] the error counter and the diagnostic log
    move together: the log keeps what it held and receives the records of
    the run, the counter grows by exactly their number and never
    decreases.  These records are none when the format is refused or the
    traversal does not start, and otherwise one "error listing" record,
    with the path and the error of the step, for each step that carries an
    error, in the order of the steps. *)
Theorem Lsf_counter_log_in_step {W : Type} `{Writer W}
  (fl : Flags) (fsrc : fs.Fs) (w : World W) :
  fs.logged (diag (snd (Lsf fl fsrc w)))
  = (fs.logged (diag w) ++ Lsf_reports fl fsrc)%list /\
  fs.errors (diag (snd (Lsf fl fsrc w)))
  = fs.errors (diag w) + Z.of_nat (List.length (Lsf_reports fl fsrc)) /\
  fs.errors (diag w) <= fs.errors (diag (snd (Lsf fl fsrc w))) /\
  Forall (fun r => fs.log_format r = "error listing: %v") (Lsf_reports fl fsrc) /\
  Lsf_reports fl fsrc
  = match compile fl with
    | inl _ => []
    | inr _ =>
        match fs.start (traversalOf fl fsrc) with
        | Some _ => []
        | None =>
            flat_map (fun s =>
              match fs.err s with
              | Some e => [fs.mkLog (fs.path s) "error listing: %v" e]
              | None => []
              end) (fs.steps (traversalOf fl fsrc))
        end
    end.
Proof.
  rewrite Lsf_world. unfold Lsf_reports.
  destruct (compile fl) as [e|l];
    [|destruct (fs.start (traversalOf fl fsrc)) as [e|]].
  - cbn. rewrite app_nil_r, Z.add_0_r. repeat split; [lia|constructor].
  - cbn. rewrite app_nil_r, Z.add_0_r. repeat split; [lia|constructor].
  - cbn [snd diag fs.logged fs.errors].
    repeat split; [lia|apply stepErrors_format].
Qed.

(** ** The traversal requested *)

(** X8: a run of [Lsf] requests no traversal when the format is refused
    and exactly one otherwise, from the root (the empty path) and without
    the include-all switch; failed steps or a failed start never make it
    ask again. *)
Theorem Lsf_one_traversal {W : Type} `{Writer W}
  (fl : Flags) (fsrc : fs.Fs) (w : World W) :
  exists maxLevel : Z,
    walks (snd (Lsf fl fsrc w))
    = (walks w ++
       match compile fl with
       | inl _ => []
       | inr _ => [mkWalkCall "" false maxLevel]
       end)%list.
Proof.
  exists (operations.ConfigMaxDepth (recurse fl)). rewrite Lsf_world.
  destruct (compile fl) as [e|l]; [cbn; now rewrite app_nil_r|].
  destruct (fs.start (traversalOf fl fsrc)); reflexivity.
Qed.

(** ** Steps and batches *)

Lemma flat_map_filter_nil {A B : Type} (f : A -> list B) (p : A -> bool)
  (xs : list A) :
  (forall x, p x = false -> f x = []) ->
  flat_map f (filter p xs) = flat_map f xs.
Proof.
  intros Hf. induction xs as [|x rest IH]; [reflexivity|].
  cbn [filter flat_map]. destruct (p x) eqn:E; cbn [flat_map].
  - now rewrite IH.
  - now rewrite (Hf x E), IH.
Qed.

Lemma flat_map_all_nil {A B : Type} (f : A -> list B) (xs : list A) :
  (forall x, In x xs -> f x = []) -> flat_map f xs = [].
Proof.
  induction xs as [|x rest IH]; intros Hf; [reflexivity|].
  cbn [flat_map]. rewrite (Hf x (or_introl eq_refl)), IH; [reflexivity|].
  intros y Hy. apply Hf. now right.
Qed.

Lemma stepLines_failed (fl : Flags) (l : operations.ListFormat) (s : fs.Step) :
  failed s = true -> stepLines fl l s = [].
Proof. unfold failed, stepLines. now destruct (fs.err s). Qed.

Lemma stepErrors_filter_failed (ss : list fs.Step) :
  stepErrors (filter failed ss) = stepErrors ss.
Proof.
  unfold stepErrors. apply flat_map_filter_nil.
  intros s. unfold failed. now destruct (fs.err s).
Qed.

Lemma stepErrors_filter_ok (ss : list fs.Step) :
  stepErrors (filter (fun s => negb (failed s)) ss) = [].
Proof.
  unfold stepErrors. apply flat_map_all_nil. intros s Hin.
  apply filter_In in Hin as [_ Hs]. unfold failed in Hs.
  now destruct (fs.err s).
Qed.

(** X7: the sink depends on the success steps only and the side channel
    on the error steps only.  A run on the traversal without its error
    steps writes the same and leaves counter and log as they were; a run
    on the traversal with its error steps alone counts and logs the same
    and leaves the sink as it was. *)
Theorem Lsf_sink_and_side_channel {W : Type} `{Writer W}
  (fl : Flags) (fsrc : fs.Fs) (w : World W) :
  out (snd (Lsf fl (keepSteps (fun s => negb (failed s)) fsrc) w))
  = out (snd (Lsf fl fsrc w)) /\
  diag (snd (Lsf fl (keepSteps (fun s => negb (failed s)) fsrc) w)) = diag w /\
  diag (snd (Lsf fl (keepSteps failed fsrc) w)) = diag (snd (Lsf fl fsrc w)) /\
  out (snd (Lsf fl (keepSteps failed fsrc) w)) = out w.
Proof.
  rewrite !Lsf_world.
  destruct (compile fl) as [e|l]; [repeat split|].
  unfold traversalOf, keepSteps. cbn [fs.traverse fs.start fs.steps].
  fold (traversalOf fl fsrc).
  destruct (fs.start (traversalOf fl fsrc)) as [e|]; [repeat split|].
  cbn [snd out diag].
  rewrite stepErrors_filter_ok, stepErrors_filter_failed.
  rewrite (flat_map_filter_nil (stepLines fl l) (fun s => negb (failed s))).
  2:{ intros s Hs. apply stepLines_failed. now apply negb_false_iff. }
  rewrite (flat_map_all_nil (stepLines fl l) (filter failed _)).
  2:{ intros s Hin. apply filter_In in Hin as [_ Hs].
      now apply stepLines_failed. }
  cbn. rewrite Z.add_0_r, app_nil_r. destruct w as [o [n lg] ws].
  repeat split.
Qed.

Section Batches.

Context {W : Type} `{Writer W}.
Variable fl : Flags.
Variable l : operations.ListFormat.

Lemma Lsf_entries_app (xs ys : fs.DirEntries) :
  forall w : World W,
    Lsf_entries fl l (xs ++ ys)%list w = Lsf_entries fl l ys (Lsf_entries fl l xs w).
Proof.
  induction xs as [|x rest IH]; intros w; [reflexivity|].
  rewrite <- app_comm_cons, !Lsf_entries_cons. apply IH.
Qed.

Lemma deliver_app (xs ys : list fs.Step) :
  forall w : World W,
    walk.deliver (Lsf_fn fl l) (xs ++ ys)%list w
    = walk.deliver (Lsf_fn fl l) ys (snd (walk.deliver (Lsf_fn fl l) xs w)).
Proof.
  induction xs as [|s rest IH]; intros w; [reflexivity|].
  rewrite <- app_comm_cons. cbn [walk.deliver].
  rewrite Lsf_fn_step. apply IH.
Qed.

End Batches.

(** X5: the listing does not depend on how the traversal groups the
    entries into success steps, nor on the paths of these steps: the
    callback on a batch [xs ++ ys] does what it does on [xs] and then on
    [ys], under any paths, and a traversal that delivers the batch in one
    step or in two consecutive steps leads to the same world. *)
Theorem Lsf_fn_batches_compose {W : Type} `{Writer W}
  (fl : Flags) (l : operations.ListFormat) (p p1 p2 : string)
  (xs ys : fs.DirEntries) (before after : list fs.Step) (w : World W) :
  Lsf_fn fl l p (xs ++ ys)%list None w
  = Lsf_fn fl l p2 ys None (snd (Lsf_fn fl l p1 xs None w)) /\
  walk.deliver (Lsf_fn fl l)
    (before ++ fs.mkStep p (xs ++ ys) None :: after)%list w
  = walk.deliver (Lsf_fn fl l)
      (before ++ fs.mkStep p1 xs None :: fs.mkStep p2 ys None :: after)%list w.
Proof.
  assert (E : Lsf_fn fl l p (xs ++ ys)%list None w
              = Lsf_fn fl l p2 ys None (snd (Lsf_fn fl l p1 xs None w))).
  { unfold Lsf_fn. cbn [snd]. now rewrite Lsf_entries_app. }
  split; [exact E|].
  rewrite !deliver_app. cbn [walk.deliver fs.path fs.entries fs.err].
  generalize (snd (walk.deliver (Lsf_fn fl l) before w)). intros v.
  unfold Lsf_fn. now rewrite Lsf_entries_app.
Qed.

(** ** The two filters *)

Lemma rendered_filesOnly (fl : Flags) (l : operations.ListFormat)
  (es : fs.DirEntries) :
  rendered (withFilter true false fl) l es
  = rendered (withFilter false false fl) l (filter isFile es).
Proof.
  unfold rendered, survivors. f_equal.
  induction es as [|e rest IH]; [reflexivity|].
  cbn [filter]. unfold keep at 1, isFile at 1. cbn [filesOnly dirsOnly withFilter].
  destruct (fs.isDirectory e) eqn:E; cbn [negb]; [exact IH|].
  cbn [filter]. unfold keep at 2. cbn [filesOnly dirsOnly withFilter].
  rewrite E. cbn [negb]. now rewrite IH.
Qed.

Lemma rendered_dirsOnly (fl : Flags) (l : operations.ListFormat)
  (es : fs.DirEntries) :
  rendered (withFilter false true fl) l es
  = rendered (withFilter false false fl) l (filter fs.isDirectory es).
Proof.
  unfold rendered, survivors. f_equal.
  induction es as [|e rest IH]; [reflexivity|].
  cbn [filter]. unfold keep at 1. cbn [filesOnly dirsOnly withFilter].
  destruct (fs.isDirectory e) eqn:E; cbn [negb]; [|exact IH].
  cbn [filter]. unfold keep at 2. cbn [filesOnly dirsOnly withFilter].
  rewrite E. cbn [negb]. now rewrite IH.
Qed.

Lemma stepErrors_keepEntries (p : fs.DirEntry -> bool) (ss : list fs.Step) :
  stepErrors
    (map (fun s => fs.mkStep (fs.path s) (filter p (fs.entries s)) (fs.err s))
       ss)
  = stepErrors ss.
Proof.
  unfold stepErrors. induction ss as [|s rest IH]; [reflexivity|].
  cbn [map flat_map fs.err fs.path]. now rewrite IH.
Qed.

Lemma stepLines_keepEntries (fl fl' : Flags) (l : operations.ListFormat)
  (p : fs.DirEntry -> bool) (ss : list fs.Step) :
  (forall es, rendered fl l es = rendered fl' l (filter p es)) ->
  flat_map (stepLines fl' l)
    (map (fun s => fs.mkStep (fs.path s) (filter p (fs.entries s)) (fs.err s))
       ss)
  = flat_map (stepLines fl l) ss.
Proof.
  intros Hrend. induction ss as [|s rest IH]; [reflexivity|].
  cbn [map flat_map]. rewrite IH. f_equal.
  unfold stepLines. cbn [fs.err fs.entries].
  destruct (fs.err s); [reflexivity|]. symmetry. apply Hrend.
Qed.

Lemma Lsf_keepEntries {W : Type} `{Writer W} (fl fl' : Flags)
  (p : fs.DirEntry -> bool) (fsrc : fs.Fs) (w : World W) :
  compile fl = compile fl' ->
  recurse fl = recurse fl' ->
  (forall l es, rendered fl l es = rendered fl' l (filter p es)) ->
  Lsf fl fsrc w = Lsf fl' (keepEntries p fsrc) w.
Proof.
  intros Hc Hr Hrend. rewrite !Lsf_world, <- Hc.
  destruct (compile fl) as [e|l]; [reflexivity|].
  unfold theCall, traversalOf, keepEntries. rewrite <- Hr.
  cbn [fs.traverse fs.start fs.steps].
  destruct (fs.start _) as [e|]; [reflexivity|].
  cbv zeta.
  now rewrite stepErrors_keepEntries, (stepLines_keepEntries fl fl' l p _ (Hrend l)).
Qed.

(** X4: listing with [filesOnly] is listing, without a filter, a tree
    whose batches hold no directory; listing with [dirsOnly] is listing,
    without a filter, a tree whose batches hold directories only.  The two
    runs agree on the value returned and on the whole world. *)
Theorem Lsf_filter_as_pruned_tree {W : Type} `{Writer W}
  (fl : Flags) (fsrc : fs.Fs) (w : World W) :
  Lsf (withFilter true false fl) fsrc w
  = Lsf (withFilter false false fl) (keepEntries isFile fsrc) w /\
  Lsf (withFilter false true fl) fsrc w
  = Lsf (withFilter false false fl) (keepEntries fs.isDirectory fsrc) w.
Proof.
  split; apply Lsf_keepEntries; try reflexivity; intros l es.
  - apply rendered_filesOnly.
  - apply rendered_dirsOnly.
Qed.

Lemma rendered_count (fl : Flags) (l : operations.ListFormat)
  (es : fs.DirEntries) :
  (List.length (rendered (withFilter true false fl) l es)
   + List.length (rendered (withFilter false true fl) l es)
   = List.length (rendered (withFilter false false fl) l es))%nat.
Proof.
  unfold rendered, survivors. rewrite !length_map.
  induction es as [|e rest IH]; [reflexivity|].
  cbn [filter].
  assert (KF : keep (withFilter true false fl) e = negb (fs.isDirectory e))
    by (unfold keep; now destruct (fs.isDirectory e)).
  assert (KD : keep (withFilter false true fl) e = fs.isDirectory e)
    by (unfold keep; now destruct (fs.isDirectory e)).
  assert (KA : keep (withFilter false false fl) e = true)
    by (unfold keep; now destruct (fs.isDirectory e)).
  rewrite KF, KD, KA.
  destruct (fs.isDirectory e); cbn [negb List.length]; lia.
Qed.

Lemma stepLines_count (fl : Flags) (l : operations.ListFormat)
  (ss : list fs.Step) :
  (List.length (flat_map (stepLines (withFilter true false fl) l) ss)
   + List.length (flat_map (stepLines (withFilter false true fl) l) ss)
   = List.length (flat_map (stepLines (withFilter false false fl) l) ss))%nat.
Proof.
  induction ss as [|s rest IH]; [reflexivity|].
  cbn [flat_map]. rewrite !length_app.
  assert (E : (List.length (stepLines (withFilter true false fl) l s)
               + List.length (stepLines (withFilter false true fl) l s)
               = List.length (stepLines (withFilter false false fl) l s))%nat).
  { unfold stepLines. destruct (fs.err s); [reflexivity|apply rendered_count]. }
  lia.
Qed.

(** X3: the two filters split the listing: on a recording sink, the
    number of writes of a run with [filesOnly] plus that of a run with
    [dirsOnly] is the number of writes of the run without a filter (each
    count taken over what the sink already held). *)
Theorem Lsf_filters_split_listing
  (fl : Flags) (fsrc : fs.Fs) (w : World Recorder) :
  (List.length (out (snd (Lsf (withFilter true false fl) fsrc w)))
   + List.length (out (snd (Lsf (withFilter false true fl) fsrc w)))
   = List.length (out (snd (Lsf (withFilter false false fl) fsrc w)))
     + List.length (out w))%nat.
Proof.
  rewrite !Lsf_world.
  change (compile (withFilter true false fl)) with (compile fl).
  change (compile (withFilter false true fl)) with (compile fl).
  change (compile (withFilter false false fl)) with (compile fl).
  change (traversalOf (withFilter true false fl) fsrc) with (traversalOf fl fsrc).
  change (traversalOf (withFilter false true fl) fsrc) with (traversalOf fl fsrc).
  change (traversalOf (withFilter false false fl) fsrc) with (traversalOf fl fsrc).
  destruct (compile fl) as [e|l]; [reflexivity|].
  destruct (fs.start (traversalOf fl fsrc)) as [e|]; [reflexivity|].
  cbn [snd out]. rewrite !writeAll_Recorder, !length_app, !length_map.
  pose proof (stepLines_count fl l (fs.steps (traversalOf fl fsrc))). lia.
Qed.

(** ** The listing of names *)

Lemma rendered_names (fl : Flags) (es : fs.DirEntries) :
  filesOnly fl = false -> dirsOnly fl = false ->
  rendered fl
    (operations.mkListFormat (separator fl) (dirSlash fl) [operations.CodePath])
    es
  = map (nameLine (dirSlash fl)) es.
Proof.
  intros Hf Hd. unfold rendered. now rewrite survivors_all.
Qed.

(** X6: with the format [p] and no filter (the defaults of the command),
    when the traversal starts, [Lsf] returns [nil] and hands the sink, for
    every entry delivered without an error and in the order of delivery,
    one line holding the path of the entry, followed by a slash when the
    entry is a directory and [dirSlash] is set; the separator plays no
    part. *)
Theorem Lsf_names_listing (fl : Flags) (fsrc : fs.Fs) (w : World Recorder) :
  format fl = runes "p" ->
  filesOnly fl = false ->
  dirsOnly fl = false ->
  fs.start (traversalOf fl fsrc) = None ->
  fst (Lsf fl fsrc w) = None /\
  out (snd (Lsf fl fsrc w))
  = (out w ++
     map (fun entry => (nameLine (dirSlash fl) entry ++ newline)%string)
       (delivered (fs.steps (traversalOf fl fsrc))))%list.
Proof.
  intros Hfmt Hf Hd Hs. rewrite Lsf_world.
  assert (Hc : compile fl
               = inr (operations.mkListFormat (separator fl) (dirSlash fl)
                        [operations.CodePath]))
    by (unfold compile; now rewrite Hfmt).
  rewrite Hc, Hs. split; [reflexivity|].
  cbn [snd out]. rewrite writeAll_Recorder. f_equal.
  induction (fs.steps (traversalOf fl fsrc)) as [|s rest IH]; [reflexivity|].
  unfold delivered in *. cbn [flat_map]. rewrite !map_app, IH. f_equal.
  unfold stepLines. destruct (fs.err s); [reflexivity|].
  rewrite (rendered_names fl _ Hf Hd). now rewrite map_map.
Qed.

Lemma Lsf_names_listing_witness :
  format defaultFlags = runes "p" /\
  filesOnly defaultFlags = false /\
  dirsOnly defaultFlags = false /\
  fs.start (traversalOf defaultFlags swiftBucket) = None /\
  fst (Lsf defaultFlags swiftBucket (emptyWorld (W := Recorder) [])) = None /\
  out (snd (Lsf defaultFlags swiftBucket (emptyWorld (W := Recorder) [])))
  = [ "bevajer5jef" ++ newline; "canole" ++ newline; "diwogej7" ++ newline;
      "ferejej3gux/" ++ newline; "fubuwic" ++ newline ].
Proof.
  do 4 (split; [reflexivity|]).
  exact (Lsf_names_listing defaultFlags swiftBucket (emptyWorld [])
           eq_refl eq_refl eq_refl eq_refl).
Defined.

(** ** The format loop, by parts *)

(** X9: the format is compiled from left to right: compiling [xs ++ ys]
    is compiling [ys] onto what [xs] compiled to, and an unknown character
    of [xs] is the error whatever [ys] holds. *)
Theorem Lsf_format_app (ht : hash.Type_) (xs ys : list rune)
  (l : operations.ListFormat) :
  Lsf_format ht (xs ++ ys)%list l
  = match Lsf_format ht xs l with
    | inl e => inl e
    | inr l' => Lsf_format ht ys l'
    end.
Proof.
  revert l. induction xs as [|c rest IH]; intros l; [reflexivity|].
  rewrite <- app_comm_cons, !Lsf_format_cons.
  destruct (codeOf ht c); [apply IH | reflexivity].
Qed.

(** ** No more than a line per entry *)

Lemma stepLines_bound (fl : Flags) (l : operations.ListFormat)
  (ss : list fs.Step) :
  (List.length (flat_map (stepLines fl l) ss) <= List.length (delivered ss))%nat.
Proof.
  induction ss as [|s rest IH]; [apply Nat.le_refl|].
  unfold delivered in *. cbn [flat_map]. rewrite !length_app.
  apply Nat.add_le_mono; [|exact IH].
  unfold stepLines. destruct (fs.err s); [apply Nat.le_refl|].
  unfold rendered, survivors. rewrite length_map. apply filter_length_le.
Qed.

(** X10: whatever the flags, a run of [Lsf] hands the sink at most one
    chunk per entry delivered without an error: on a recording sink the
    number of writes added never exceeds the number of these entries. *)
Theorem Lsf_at_most_one_line_per_entry
  (fl : Flags) (fsrc : fs.Fs) (w : World Recorder) :
  (List.length (out (snd (Lsf fl fsrc w)))
   <= List.length (out w)
      + List.length (delivered (fs.steps (traversalOf fl fsrc))))%nat.
Proof.
  rewrite Lsf_world.
  destruct (compile fl) as [e|l]; [cbn; lia|].
  destruct (fs.start (traversalOf fl fsrc)) as [e|]; [cbn; lia|].
  cbn [snd out]. rewrite writeAll_Recorder, length_app, length_map.
  pose proof (stepLines_bound fl l (fs.steps (traversalOf fl fsrc))). lia.
Qed.
